(** * Frontend-TS: the [HTMLElement] wrapper and its ancestor search

    A shallow embedding of [src/type/AnyElement.ts]: the host document is a
    heap of element objects addressed by reference, the wrapper class is a
    record around one reference, and the methods are computations in a small
    state-and-exception monad.  The recursive helper
    [getAncestorByClassRecursive] is given fuel, one unit per invocation. *)

From stdpp Require Import base option list strings gmap.


(** ** The host document *)

(** A reference to an element object of the host document. *)
Definition node := positive.

(** The attributes of a [globalThis.HTMLElement] that the wrapper reads:
    [id] and [tagName] are strings, [classList] is a [DOMTokenList] (its
    tokens, in order), [parentElement] is another element or [null]. *)
Record Element := mkElement {
  id : string;
  tagName : string;
  classList : list string;
  parentElement : option node
}.

(** The document: the element objects that are alive, by reference. *)
Abbreviation Document := (gmap node Element).

(** ** JavaScript values, errors and completions *)

(** The values [element[property]] can take under the type bound
    [globalThis.HTMLElement[K] extends string | DOMTokenList]. *)
Inductive JSValue :=
| VString (s : string)
| VTokenList (tokens : list string).

Inductive JSError := TypeError.

(** How a call ends: it returns a value, it throws, it has used up its fuel
    ([Diverge]), or it dereferenced a reference that is not in the document
    ([Stuck]; no JavaScript program can do that). *)
Inductive completion (A : Type) :=
| Return (a : A)
| Throw (e : JSError)
| Diverge
| Stuck.
Arguments Return {A} a.
Arguments Throw {A} e.
Arguments Diverge {A}.
Arguments Stuck {A}.

(** Computations over the document. *)
Definition M (A : Type) : Type := Document → completion A * Document.

Definition throw {A} (e : JSError) : M A := λ d, (Throw e, d).
Definition diverge {A} : M A := λ d, (Diverge, d).

(** A call has ended: it returned or it threw. *)
Definition terminated {A} (c : completion A) : Prop :=
  match c with
  | Return _ | Throw _ => True
  | Diverge | Stuck => False
  end.

#[export] Instance M_ret : MRet M := λ A a d, (Return a, d).
#[export] Instance M_bind : MBind M := λ A B f m d,
  match m d with
  | (Return a, d') => f a d'
  | (Throw e, d') => (Throw e, d')
  | (Diverge, d') => (Diverge, d')
  | (Stuck, d') => (Stuck, d')
  end.

(** Reading the object behind a reference. *)
Definition read (n : node) : M Element := λ d,
  match d !! n with
  | Some e => (Return e, d)
  | None => (Stuck, d)
  end.

(** Replacing the object behind a reference. *)
Definition write (n : node) (e : Element) : M unit := λ d,
  match d !! n with
  | Some _ => (Return (), <[n := e]> d)
  | None => (Stuck, d)
  end.

(** ** The operators the source applies to [element[property]] *)

(** [typeof v] *)
Definition typeof (v : JSValue) : string :=
  match v with
  | VString _ => "string"
  | VTokenList _ => "object"
  end.

(** [v == s] for a string [s].  Two strings are equal when they are the same
    string; an object is first converted to a string, which for a
    [DOMTokenList] is the serialisation of its tokens. *)
Definition loose_eq (v : JSValue) (s : string) : bool :=
  match v with
  | VString t => bool_decide (t = s)
  | VTokenList l => bool_decide (String.concat " " l = s)
  end.

(** The names found on a [DOMTokenList] object and its prototype. *)
Definition DOMTokenList_members : list string :=
  ["length"; "value"; "item"; "contains"; "add"; "remove"; "toggle";
   "replace"; "supports"; "toString"; "forEach"; "entries"; "keys"; "values"].

(** [key in v]: a [TypeError] when the right operand is not an object. *)
Definition js_in (key : string) (v : JSValue) : M bool :=
  match v with
  | VString _ => throw TypeError
  | VTokenList _ => mret (bool_decide (key ∈ DOMTokenList_members))
  end.

(** [(<DOMTokenList>v).contains(token)]: a string has no [contains] method,
    so the call throws there. *)
Definition contains (v : JSValue) (token : string) : M bool :=
  match v with
  | VString _ => throw TypeError
  | VTokenList l => mret (bool_decide (token ∈ l))
  end.

(** [s || null] on a string: the empty string is the only falsy one. *)
Definition or_null (s : string) : option string :=
  if bool_decide (s = "") then None else Some s.

(** [s ?? ""] *)
Definition nullish_empty (s : option string) : string :=
  match s with
  | Some t => t
  | None => ""
  end.

(** ** The wrapper class *)

(** [class HTMLElement { public readonly element: T; ... }] *)
Record HTMLElement := new_HTMLElement { element : node }.

(** The three property keys the public methods pass down. *)
Inductive Property := Pid | PtagName | PclassList.

(** [element[property]] *)
Definition get_property (e : Element) (property : Property) : JSValue :=
  match property with
  | Pid => VString (id e)
  | PtagName => VString (tagName e)
  | PclassList => VTokenList (classList e)
  end.

Definition with_id (e : Element) (s : string) : Element :=
  {| id := s; tagName := tagName e; classList := classList e;
     parentElement := parentElement e |}.

(** [public get id(): string | null] *)
Definition get_id (this : HTMLElement) : M (option string) :=
  e ← read (element this);
  mret (or_null (id e)).

(** [public set id(id: string | null)] *)
Definition set_id (this : HTMLElement) (v : option string) : M unit :=
  e ← read (element this);
  write (element this) (with_id e (nullish_empty v)).

(** [private getAncestorByClassRecursive(condition, property, element)].
    The source reads [element[property]] once per test; the reads have no
    effect, so one binding stands for them. *)
Fixpoint getAncestorByClassRecursive (fuel : nat) (condition : string)
    (property : Property) (element : node) : M (option HTMLElement) :=
  match fuel with
  | O => diverge
  | S fuel' =>
      e ← read element;
      let v := get_property e property in
      if bool_decide (typeof v = "string") && loose_eq v condition then
        mret (Some (new_HTMLElement element))
      else
        has ← js_in "contains" v;
        hit ← (if has : bool then contains v condition else mret false);
        if hit : bool then
          mret (Some (new_HTMLElement element))
        else
          match parentElement e with
          | Some p => getAncestorByClassRecursive fuel' condition property p
          | None => mret None
          end
  end.

(** [public getAncestorById(id)] *)
Definition getAncestorById (fuel : nat) (this : HTMLElement) (i : string)
    : M (option HTMLElement) :=
  getAncestorByClassRecursive fuel i Pid (element this).

(** [public getAncestorByTag(tag)] *)
Definition getAncestorByTag (fuel : nat) (this : HTMLElement) (tag : string)
    : M (option HTMLElement) :=
  getAncestorByClassRecursive fuel tag PtagName (element this).

(** [public getAncestorByClass(className)] *)
Definition getAncestorByClass (fuel : nat) (this : HTMLElement)
    (className : string) : M (option HTMLElement) :=
  getAncestorByClassRecursive fuel className PclassList (element this).

(** ** Ancestor chains and the search the specification describes *)

(** [chain d n l]: following [parentElement] from [n] reaches the root after
    finitely many steps, and [l] lists the nodes met, [n] first. *)
Inductive chain (d : Document) : node → list node → Prop :=
| chain_root n e :
    d !! n = Some e → parentElement e = None → chain d n [n]
| chain_parent n e p l :
    d !! n = Some e → parentElement e = Some p → chain d p l →
    chain d n (n :: l).

(** The nodes from [n] up to the root, if the root is reached within [k]
    steps. *)
Fixpoint ancestors (k : nat) (d : Document) (n : node) : option (list node) :=
  match k with
  | O => None
  | S k' =>
      match d !! n with
      | None => None
      | Some e =>
          match parentElement e with
          | None => Some [n]
          | Some p => cons n <$> ancestors k' d p
          end
      end
  end.

(** The match rules of the specification, by condition kind: equality of
    the identifier, equality of the tag name, membership among the class
    tokens. *)
Definition spec_matches (property : Property) (condition : string)
    (e : Element) : bool :=
  match property with
  | Pid => bool_decide (id e = condition)
  | PtagName => bool_decide (tagName e = condition)
  | PclassList => bool_decide (condition ∈ classList e)
  end.

(** The search as the specification words it: the first node of the chain,
    the starting node included, that matches; absent when none does. *)
Definition spec_locate (d : Document) (property : Property)
    (condition : string) (l : list node) : option HTMLElement :=
  new_HTMLElement <$>
    List.find (λ n, match d !! n with
                    | Some e => spec_matches property condition e
                    | None => false
                    end) l.

(** ** Example documents *)

(** root -> A (div) -> B (span) -> C (p), tag names in upper case as an HTML
    document reports them. *)
Definition tag_root : node := 1%positive.
Definition tag_A : node := 2%positive.
Definition tag_B : node := 3%positive.
Definition tag_C : node := 4%positive.

Definition tag_doc : Document :=
  <[tag_root := mkElement "" "HTML" [] None]>
  (<[tag_A := mkElement "" "DIV" [] (Some tag_root)]>
  (<[tag_B := mkElement "" "SPAN" [] (Some tag_A)]>
  (<[tag_C := mkElement "" "P" [] (Some tag_B)]> ∅))).

(** The same chain with the tag names as the specification spells them. *)
Definition tag_doc_lower : Document :=
  <[tag_root := mkElement "" "html" [] None]>
  (<[tag_A := mkElement "" "div" [] (Some tag_root)]>
  (<[tag_B := mkElement "" "span" [] (Some tag_A)]>
  (<[tag_C := mkElement "" "p" [] (Some tag_B)]> ∅))).

(** The page of the README: body > div#my-div > div.some-div > span >
    p#my-leaf. *)
Definition readme_body : node := 1%positive.
Definition readme_my_div : node := 2%positive.
Definition readme_some_div : node := 3%positive.
Definition readme_span : node := 4%positive.
Definition readme_leaf : node := 5%positive.

Definition readme_doc : Document :=
  <[readme_body := mkElement "" "BODY" [] None]>
  (<[readme_my_div := mkElement "my-div" "DIV" [] (Some readme_body)]>
  (<[readme_some_div := mkElement "" "DIV" ["some-div"] (Some readme_my_div)]>
  (<[readme_span := mkElement "" "SPAN" [] (Some readme_some_div)]>
  (<[readme_leaf := mkElement "my-leaf" "P" [] (Some readme_span)]> ∅)))).

(** A document with one element. *)
Definition lone_doc : Document :=
  {[ 1%positive := mkElement "a" "DIV" ["c"] None ]}.

(** A single element with two class tokens under a root. *)
Definition class_doc : Document :=
  <[1%positive := mkElement "top" "DIV" ["baz"] None]>
  (<[2%positive := mkElement "x" "P" ["foo"; "bar"] (Some 1%positive)]> ∅).

(** A malformed document: two elements that are each other's parent. *)
Definition cyclic_doc : Document :=
  <[1%positive := mkElement "" "DIV" [] (Some 2%positive)]>
  (<[2%positive := mkElement "" "DIV" [] (Some 1%positive)]> ∅).

(** ** The [parent] getter and walking up with it *)

(** [public get parent(): HTMLElement | null] *)
Definition get_parent (this : HTMLElement) : M (option HTMLElement) :=
  e ← read (element this);
  mret (match parentElement e with
        | Some p => Some (new_HTMLElement p)
        | None => None
        end).

(** [this.parent?.parent?. ... ?.parent], [k] times: what a caller gets by
    following [parent] until it is [null]. *)
Fixpoint nth_parent (k : nat) (this : HTMLElement) : M (option HTMLElement) :=
  match k with
  | O => mret (Some this)
  | S k' =>
      w ← nth_parent k' this;
      match w with
      | Some w' => get_parent w'
      | None => mret None
      end
  end.

(** [p] is what [parent] returns on the wrapper of [n]. *)
Definition parent_of (d : Document) (n p : node) : Prop :=
  (get_parent (new_HTMLElement n) d).1 = Return (Some (new_HTMLElement p)).

(** The position of the first element of [l] that satisfies [P], or the
    length of [l] when none does. *)
Fixpoint first_index {A} (P : A → bool) (l : list A) : nat :=
  match l with
  | [] => 0
  | x :: l' => if P x then 0 else S (first_index P l')
  end.

(** Whether the element behind [n] has the class token [c]. *)
Definition has_class (d : Document) (c : string) (n : node) : bool :=
  match d !! n with
  | Some e => bool_decide (c ∈ classList e)
  | None => false
  end.

(** ** The accessors of optional string properties *)

(** The part of the host these accessors touch, for a property name, an
    element and a host state: whether the element object has the property
    ([name in element]), what reading it gives, what assigning to it does. *)
Class HostProperties (H : Type) := {
  has_property : string → node → H → bool;
  load_property : string → node → H → string;
  store_property : string → node → string → H → H
}.

(** How an accessor ends: with a value, or with [throw new Error(message)]. *)
Inductive Outcome (A : Type) :=
| Value (a : A)
| Raised (message : string).
Arguments Value {A} a.
Arguments Raised {A} message.

(** [public get src()] *)
Definition get_src `{HostProperties H} (this : HTMLElement) (h : H)
    : Outcome (option string) :=
  if has_property "src" (element this) h
  then Value (or_null (load_property "src" (element this) h))
  else Raised "Not a source element".

(** [public set src(src)] *)
Definition set_src `{HostProperties H} (this : HTMLElement)
    (src : option string) (h : H) : Outcome unit * H :=
  if has_property "src" (element this) h
  then (Value (),
        store_property "src" (element this) (nullish_empty src) h)
  else (Raised "Not a source element", h).

(** [public get href()] *)
Definition get_href `{HostProperties H} (this : HTMLElement) (h : H)
    : Outcome (option string) :=
  if has_property "href" (element this) h
  then Value (or_null (load_property "href" (element this) h))
  else Raised "Not a link element".

(** [public set href(href)] *)
Definition set_href `{HostProperties H} (this : HTMLElement)
    (href : option string) (h : H) : Outcome unit * H :=
  if has_property "href" (element this) h
  then (Value (),
        store_property "href" (element this) (nullish_empty href) h)
  else (Raised "Not a link element", h).

(** [public get value()] *)
Definition get_value `{HostProperties H} (this : HTMLElement) (h : H)
    : Outcome (option string) :=
  if has_property "value" (element this) h
  then Value (or_null (load_property "value" (element this) h))
  else Raised "Not a value element".

(** [public set value(value)] *)
Definition set_value `{HostProperties H} (this : HTMLElement)
    (value : option string) (h : H) : Outcome unit * H :=
  if has_property "value" (element this) h
  then (Value (),
        store_property "value" (element this) (nullish_empty value) h)
  else (Raised "Not a value element", h).

(** A property of an element that reads back what was last assigned to it
    and stays on the element when assigned to. *)
Definition reflects_plainly `{HostProperties H} (name : string) (n : node)
    (h : H) : Prop :=
  has_property name n h = true ∧
  ∀ v, has_property name n (store_property name n v h) = true ∧
       load_property name n (store_property name n v h) = v.

(** What the three pairs of accessors have in common, for a property name
    and an error message: on an element without the property both accessors
    throw the message and nothing is written; on an element with it the
    getter returns a value that is never the empty string and the setter
    returns; the setter does the same for [null] and for the empty string. *)
Definition guarded_accessor `{HostProperties H} (name message : string)
    (get : HTMLElement → H → Outcome (option string))
    (set : HTMLElement → option string → H → Outcome unit * H) : Prop :=
  ∀ this h v,
    (has_property name (element this) h = false →
       get this h = Raised message ∧ set this v h = (Raised message, h)) ∧
    (has_property name (element this) h = true →
       (∃ r, get this h = Value r ∧ r ≠ Some "") ∧
       (set this v h).1 = Value ()) ∧
    set this None h = set this (Some "") h.

(** A host whose properties are plain slots, keyed by element and name. *)
Definition slot_host : HostProperties (gmap (node * string) string) := {|
  has_property name n h := bool_decide (is_Some (h !! (n, name)));
  load_property name n h := default "" (h !! (n, name));
  store_property name n v h := <[(n, name) := v]> h
|}.

(** An image with a source and a division without one. *)
Definition slot_example : gmap (node * string) string :=
  {[ (1%positive, "src") := "logo.png" ]}.

(** ** How the recursive helper unfolds *)

Lemma bind_read {B} n (d : Document) e (k : Element → M B) :
  d !! n = Some e → (read n ≫= k) d = k e d.
Proof. intros Hn. unfold mbind, M_bind, read. by rewrite Hn. Qed.

Lemma typeof_string s : bool_decide (typeof (VString s) = "string") = true.
Proof. reflexivity. Qed.

Lemma typeof_tokens l : bool_decide (typeof (VTokenList l) = "string") = false.
Proof. reflexivity. Qed.

Lemma contains_is_member :
  bool_decide ("contains" ∈ DOMTokenList_members) = true.
Proof. apply bool_decide_eq_true_2. unfold DOMTokenList_members. set_solver. Qed.

(** One invocation on a live element: a string attribute either matches or
    makes the [in] test throw; a token list either holds the condition or
    hands over to the parent. *)
Lemma search_step fuel condition property n (d : Document) e :
  d !! n = Some e →
  getAncestorByClassRecursive (S fuel) condition property n d =
  match get_property e property with
  | VString s =>
      if bool_decide (s = condition)
      then (Return (Some (new_HTMLElement n)), d)
      else (Throw TypeError, d)
  | VTokenList l =>
      if bool_decide (condition ∈ l)
      then (Return (Some (new_HTMLElement n)), d)
      else match parentElement e with
           | Some p => getAncestorByClassRecursive fuel condition property p d
           | None => (Return None, d)
           end
  end.
Proof.
  intros Hn. cbn [getAncestorByClassRecursive].
  unfold mbind, M_bind, read. rewrite Hn.
  destruct (get_property e property) as [s|l] eqn:Hv.
  - rewrite typeof_string. cbn [loose_eq andb].
    case_bool_decide; reflexivity.
  - rewrite typeof_tokens. cbn [andb js_in contains mret M_ret].
    rewrite contains_is_member.
    case_bool_decide; [reflexivity|].
    destruct (parentElement e); reflexivity.
Qed.

Lemma search_dangling fuel condition property n (d : Document) :
  d !! n = None →
  getAncestorByClassRecursive (S fuel) condition property n d = (Stuck, d).
Proof.
  intros Hn. cbn [getAncestorByClassRecursive].
  unfold mbind, M_bind, read. by rewrite Hn.
Qed.

(** The search hands back the document it was given. *)
Lemma search_frame fuel condition property n (d : Document) :
  (getAncestorByClassRecursive fuel condition property n d).2 = d.
Proof.
  revert n. induction fuel as [|fuel IH]; intros n; [reflexivity|].
  destruct (d !! n) as [e|] eqn:Hn.
  - rewrite (search_step _ _ _ _ _ _ Hn).
    destruct (get_property e property); case_bool_decide; try reflexivity.
    destruct (parentElement e); [apply IH | reflexivity].
  - by rewrite search_dangling.
Qed.

(** ** Chains *)

Lemma chain_head (d : Document) n l : chain d n l → ∃ l', l = n :: l'.
Proof. destruct 1; eauto. Qed.

Lemma chain_live (d : Document) n l : chain d n l → is_Some (d !! n).
Proof. destruct 1; eauto. Qed.

(** A node has at most one chain. *)
Lemma chain_functional (d : Document) n l1 l2 :
  chain d n l1 → chain d n l2 → l1 = l2.
Proof.
  intros H1. revert l2.
  induction H1 as [n e Hn Hp | n e p l Hn Hp _ IH]; intros l2 H2;
    inversion H2; subst; simplify_eq; [done|].
  f_equal. by apply IH.
Qed.

(** Every node on a chain heads a chain of its own, no longer than the
    part of the first chain that starts there. *)
Lemma chain_suffix (d : Document) n l m :
  chain d n l → m ∈ l → ∃ l', chain d m l' ∧ length l' ≤ length l.
Proof.
  induction 1 as [n e Hn Hp | n e p l Hn Hp Hc IH]; intros Hm.
  - apply list_elem_of_singleton in Hm as ->.
    exists [n]. split; [by eapply chain_root | done].
  - apply elem_of_cons in Hm as [-> | Hm].
    + exists (n :: l). split; [by eapply chain_parent | done].
    + destruct (IH Hm) as (l' & Hl' & Hlen).
      exists l'. split; [done | simpl; lia].
Qed.

(** A chain meets no node twice: the parent relation has no cycle on it. *)
Lemma chain_NoDup (d : Document) n l : chain d n l → NoDup l.
Proof.
  induction 1 as [n e Hn Hp | n e p l Hn Hp Hc IH].
  - apply NoDup_singleton.
  - apply NoDup_cons. split; [|done].
    intros Hin.
    destruct (chain_suffix _ _ _ _ Hc Hin) as (l' & Hl' & Hlen).
    assert (l' = n :: l) as ->
      by (eapply chain_functional; [done | by eapply chain_parent]).
    simpl in Hlen. lia.
Qed.

(** ** The class search meets the specification *)

Lemma byClass_locates (d : Document) n l condition fuel :
  chain d n l →
  length l ≤ fuel →
  getAncestorByClassRecursive fuel condition PclassList n d =
    (Return (spec_locate d PclassList condition l), d).
Proof.
  intros Hc. revert fuel.
  induction Hc as [n e Hn Hp | n e p l Hn Hp Hc IH]; intros fuel Hfuel;
    (destruct fuel as [|fuel]; [simpl in Hfuel; lia|]);
    rewrite (search_step _ _ _ _ _ _ Hn); cbn [get_property];
    unfold spec_locate; cbn [List.find]; rewrite Hn; cbn [spec_matches];
    case_bool_decide; try reflexivity.
  - by rewrite Hp.
  - rewrite Hp. apply IH. simpl in Hfuel. lia.
Qed.

(** With less fuel than the chain is long, a class search that finds no
    match is still on its way up: every node of the chain is visited. *)
Lemma byClass_visits_whole_chain (d : Document) n l condition fuel :
  chain d n l →
  spec_locate d PclassList condition l = None →
  fuel < length l →
  getAncestorByClassRecursive fuel condition PclassList n d = (Diverge, d).
Proof.
  intros Hc. revert fuel.
  induction Hc as [n e Hn Hp | n e p l Hn Hp Hc IH]; intros fuel Hnone Hfuel.
  - simpl in Hfuel. by replace fuel with 0 by lia.
  - destruct fuel as [|fuel]; [done|].
    rewrite (search_step _ _ _ _ _ _ Hn); cbn [get_property].
    unfold spec_locate in Hnone. cbn [List.find] in Hnone.
    rewrite Hn in Hnone. cbn [spec_matches] in Hnone.
    case_bool_decide; [done|].
    rewrite Hp. apply IH; [done | simpl in Hfuel; lia].
Qed.

(** ** The string searches stop at the starting node *)

Lemma byString_start (d : Document) n e property s condition fuel :
  d !! n = Some e →
  get_property e property = VString s →
  getAncestorByClassRecursive (S fuel) condition property n d =
    if bool_decide (s = condition)
    then (Return (Some (new_HTMLElement n)), d)
    else (Throw TypeError, d).
Proof. intros Hn Hv. by rewrite (search_step _ _ _ _ _ _ Hn), Hv. Qed.

(** ** Termination on chains *)

Lemma search_total (d : Document) n l condition property :
  chain d n l →
  ∃ r, terminated r ∧
    ∀ fuel, length l ≤ fuel →
      getAncestorByClassRecursive fuel condition property n d = (r, d).
Proof.
  induction 1 as [n e Hn Hp | n e p l Hn Hp Hc (r & Hr & IH)].
  - exists (match get_property e property with
            | VString s =>
                if bool_decide (s = condition)
                then Return (Some (new_HTMLElement n)) else Throw TypeError
            | VTokenList t =>
                if bool_decide (condition ∈ t)
                then Return (Some (new_HTMLElement n)) else Return None
            end).
    split.
    + destruct (get_property e property); case_bool_decide; done.
    + intros [|fuel] Hfuel; [simpl in Hfuel; lia|].
      rewrite (search_step _ _ _ _ _ _ Hn), Hp.
      destruct (get_property e property); case_bool_decide; done.
  - exists (match get_property e property with
            | VString s =>
                if bool_decide (s = condition)
                then Return (Some (new_HTMLElement n)) else Throw TypeError
            | VTokenList t =>
                if bool_decide (condition ∈ t)
                then Return (Some (new_HTMLElement n)) else r
            end).
    split.
    + destruct (get_property e property); case_bool_decide; done.
    + intros [|fuel] Hfuel; [simpl in Hfuel; lia|].
      rewrite (search_step _ _ _ _ _ _ Hn), Hp.
      destruct (get_property e property); case_bool_decide; try done.
      apply IH. simpl in Hfuel. lia.
Qed.

(** On the malformed document the class search never ends, whatever the
    fuel. *)
Lemma cyclic_doc_diverges fuel condition n :
  n = 1%positive ∨ n = 2%positive →
  getAncestorByClassRecursive fuel condition PclassList n cyclic_doc
    = (Diverge, cyclic_doc).
Proof.
  revert n. induction fuel as [|fuel IH]; intros n Hn; [done|].
  destruct Hn as [-> | ->].
  - rewrite (search_step _ _ _ _ _ (mkElement "" "DIV" [] (Some 2%positive)))
      by done.
    cbn [get_property classList parentElement].
    rewrite bool_decide_eq_false_2 by set_solver. apply IH. by right.
  - rewrite (search_step _ _ _ _ _ (mkElement "" "DIV" [] (Some 1%positive)))
      by done.
    cbn [get_property classList parentElement].
    rewrite bool_decide_eq_false_2 by set_solver. apply IH. by left.
Qed.

(** ** Computing chains *)

Lemma ancestors_chain k (d : Document) n l :
  ancestors k d n = Some l → chain d n l.
Proof.
  revert n l. induction k as [|k IH]; intros n l; [done|].
  cbn [ancestors].
  destruct (d !! n) as [e|] eqn:Hn; [|done].
  destruct (parentElement e) as [p|] eqn:Hp.
  - destruct (ancestors k d p) as [l'|] eqn:Hl'; [|done].
    intros [= <-]. eapply chain_parent; eauto.
  - intros [= <-]. by eapply chain_root.
Qed.

Lemma chain_ancestors (d : Document) n l :
  chain d n l → ancestors (length l) d n = Some l.
Proof.
  induction 1 as [n e Hn Hp | n e p l Hn Hp Hc IH]; cbn [ancestors length];
    rewrite Hn, Hp; [done|].
  by rewrite IH.
Qed.

Lemma readme_chain :
  chain readme_doc readme_leaf
    [readme_leaf; readme_span; readme_some_div; readme_my_div; readme_body].
Proof. by apply (ancestors_chain 5). Qed.

Lemma tag_chain : chain tag_doc tag_C [tag_C; tag_B; tag_A; tag_root].
Proof. by apply (ancestors_chain 4). Qed.

Lemma tag_lower_chain :
  chain tag_doc_lower tag_C [tag_C; tag_B; tag_A; tag_root].
Proof. by apply (ancestors_chain 4). Qed.

Lemma lone_chain : chain lone_doc 1%positive [1%positive].
Proof. by apply (ancestors_chain 1). Qed.

(** A class search from the root that does not match ends after one
    invocation. *)
Lemma byClass_root_one_node (d : Document) n e condition :
  d !! n = Some e →
  parentElement e = None →
  condition ∉ classList e →
  getAncestorByClassRecursive 1 condition PclassList n d = (Return None, d).
Proof.
  intros Hn Hp Hc. rewrite (search_step _ _ _ _ _ _ Hn), Hp.
  cbn [get_property]. by rewrite bool_decide_eq_false_2.
Qed.

(** The setter changes the document, so handing the document back unchanged
    is a property of the search and not of every computation. *)
Lemma set_id_writes :
  (set_id (new_HTMLElement 1%positive) (Some "b") lone_doc).2 ≠ lone_doc.
Proof.
  intros H. apply (f_equal (λ m : Document, id <$> m !! 1%positive)) in H.
  vm_compute in H. discriminate.
Qed.

(** * The claims *)

(** C1.  The specification promises the first matching node on the chain.
    On the page of the README, searching from [p#my-leaf] by id "my-div"
    should give [div#my-div], the fourth node of the chain; the call throws
    a [TypeError] at the starting node instead. *)
Theorem getAncestorById_readme_faults :
  chain readme_doc readme_leaf
    [readme_leaf; readme_span; readme_some_div; readme_my_div; readme_body] ∧
  spec_locate readme_doc Pid "my-div"
    [readme_leaf; readme_span; readme_some_div; readme_my_div; readme_body]
    = Some (new_HTMLElement readme_my_div) ∧
  ∀ fuel,
    getAncestorById (S fuel) (new_HTMLElement readme_leaf) "my-div" readme_doc
      = (Throw TypeError, readme_doc).
Proof.
  split; [apply readme_chain|]. split; [reflexivity|].
  intros fuel. unfold getAncestorById.
  by rewrite (byString_start _ _
    (mkElement "my-leaf" "P" [] (Some readme_span)) Pid "my-leaf").
Qed.

(** C2.  On a chain with no matching node the specification promises the
    absent marker and no failure.  The one-element document has no node
    with id "b" or tag "SECTION", and both searches throw. *)
Theorem no_match_throws_on_lone_doc :
  chain lone_doc 1%positive [1%positive] ∧
  spec_locate lone_doc Pid "b" [1%positive] = None ∧
  spec_locate lone_doc PtagName "SECTION" [1%positive] = None ∧
  ∀ fuel,
    getAncestorById (S fuel) (new_HTMLElement 1%positive) "b" lone_doc
      = (Throw TypeError, lone_doc) ∧
    getAncestorByTag (S fuel) (new_HTMLElement 1%positive) "SECTION" lone_doc
      = (Throw TypeError, lone_doc).
Proof.
  split; [apply lone_chain|]. do 2 (split; [reflexivity|]).
  intros fuel. unfold getAncestorById, getAncestorByTag. split.
  - by rewrite (byString_start _ _ (mkElement "a" "DIV" ["c"] None) Pid "a").
  - by rewrite (byString_start _ _
      (mkElement "a" "DIV" ["c"] None) PtagName "DIV").
Qed.

(** C3.  On the chain root -> A (div) -> B (span) -> C (p) the tag search
    from C returns neither A for "div" nor the absent marker for "section":
    it throws in both cases, with the tag names in upper case as well as in
    lower case. *)
Theorem getAncestorByTag_example_faults :
  ∀ fuel,
    getAncestorByTag (S fuel) (new_HTMLElement tag_C) "DIV" tag_doc
      = (Throw TypeError, tag_doc) ∧
    getAncestorByTag (S fuel) (new_HTMLElement tag_C) "SECTION" tag_doc
      = (Throw TypeError, tag_doc) ∧
    getAncestorByTag (S fuel) (new_HTMLElement tag_C) "div" tag_doc_lower
      = (Throw TypeError, tag_doc_lower) ∧
    getAncestorByTag (S fuel) (new_HTMLElement tag_C) "section" tag_doc_lower
      = (Throw TypeError, tag_doc_lower).
Proof.
  intros fuel. unfold getAncestorByTag. split; [|split; [|split]].
  - by rewrite (byString_start _ _
      (mkElement "" "P" [] (Some tag_B)) PtagName "P").
  - by rewrite (byString_start _ _
      (mkElement "" "P" [] (Some tag_B)) PtagName "P").
  - by rewrite (byString_start _ _
      (mkElement "" "p" [] (Some tag_B)) PtagName "p").
  - by rewrite (byString_start _ _
      (mkElement "" "p" [] (Some tag_B)) PtagName "p").
Qed.

(** C4.  When the id (for [getAncestorById]) or the tag name (for
    [getAncestorByTag]) of the starting node differs from the searched
    value, the call throws a [TypeError]: the [in] operator is applied to
    the string.  Neither the parent nor the absent marker is reached. *)
Theorem string_search_faults_on_mismatch (d : Document) this e x fuel :
  d !! element this = Some e →
  (id e ≠ x →
     js_in "contains" (get_property e Pid) d = (Throw TypeError, d) ∧
     getAncestorById (S fuel) this x d = (Throw TypeError, d)) ∧
  (tagName e ≠ x →
     js_in "contains" (get_property e PtagName) d = (Throw TypeError, d) ∧
     getAncestorByTag (S fuel) this x d = (Throw TypeError, d)).
Proof.
  intros Hn. unfold getAncestorById, getAncestorByTag.
  split; intros Hx; (split; [reflexivity|]).
  - rewrite (byString_start _ _ e Pid (id e)) by done.
    by rewrite bool_decide_eq_false_2.
  - rewrite (byString_start _ _ e PtagName (tagName e)) by done.
    by rewrite bool_decide_eq_false_2.
Qed.

Lemma string_search_faults_on_mismatch_witness :
  readme_doc !! readme_leaf = Some (mkElement "my-leaf" "P" [] (Some readme_span)) ∧
  "my-leaf" ≠ "my-div" ∧
  getAncestorById 1 (new_HTMLElement readme_leaf) "my-div" readme_doc
    = (Throw TypeError, readme_doc).
Proof.
  split; [reflexivity|]. split; [discriminate|].
  apply (string_search_faults_on_mismatch readme_doc
           (new_HTMLElement readme_leaf)
           (mkElement "my-leaf" "P" [] (Some readme_span)) "my-div" 0);
    [reflexivity | discriminate].
Defined.

(** C5.  A class search from a node holding the condition among its class
    tokens returns that node; otherwise it goes on with the parent (or
    returns the absent marker at the root).  On a finite chain it returns
    the starting node exactly when the condition is one of the node's
    tokens.  In particular, with tokens {"foo", "bar"}, "bar" returns the
    node and "baz" moves on to the parent. *)
Theorem class_search_matches_tokens (d : Document) this e fuel :
  d !! element this = Some e →
  (∀ c, getAncestorByClass (S fuel) this c d =
     if bool_decide (c ∈ classList e) then (Return (Some this), d)
     else match parentElement e with
          | Some p => getAncestorByClass fuel (new_HTMLElement p) c d
          | None => (Return None, d)
          end) ∧
  (∀ c l, chain d (element this) l → length l ≤ fuel →
     (getAncestorByClass fuel this c d = (Return (Some this), d)
      ↔ c ∈ classList e)) ∧
  ((∀ t, t ∈ classList e ↔ t = "foo" ∨ t = "bar") →
     getAncestorByClass (S fuel) this "bar" d = (Return (Some this), d) ∧
     getAncestorByClass (S fuel) this "baz" d =
       match parentElement e with
       | Some p => getAncestorByClass fuel (new_HTMLElement p) "baz" d
       | None => (Return None, d)
       end).
Proof.
  destruct this as [n]. cbn [element]. intros Hn.
  unfold getAncestorByClass. cbn [element].
  assert (Hstep : ∀ f c,
    getAncestorByClassRecursive (S f) c PclassList n d =
      if bool_decide (c ∈ classList e)
      then (Return (Some (new_HTMLElement n)), d)
      else match parentElement e with
           | Some p => getAncestorByClassRecursive f c PclassList p d
           | None => (Return None, d)
           end)
    by (intros f c; by rewrite (search_step _ _ _ _ _ _ Hn)).
  split; [apply Hstep|]. split.
  - intros c l Hc Hfuel.
    rewrite (byClass_locates _ _ _ _ _ Hc Hfuel).
    pose proof (chain_NoDup _ _ _ Hc) as Hnd.
    destruct Hc as [n e' Hn' Hp | n e' p l Hn' Hp Hc];
      simplify_eq; unfold spec_locate; cbn [List.find]; rewrite Hn;
      cbn [spec_matches]; case_bool_decide as Hin.
    + done.
    + split; [discriminate | done].
    + done.
    + split; [|done]. intros Heq. exfalso.
      destruct (List.find _ l) as [m|] eqn:Hfind; [|discriminate].
      apply List.find_some in Hfind as [Hm _].
      apply list_elem_of_In in Hm. simplify_eq.
      apply NoDup_cons in Hnd as [Hnd _]. done.
  - intros Hset. split.
    + rewrite Hstep, bool_decide_eq_true_2; [done|].
      apply Hset. by right.
    + rewrite Hstep, bool_decide_eq_false_2; [done|].
      rewrite Hset. intros [?|?]; discriminate.
Qed.

Lemma class_search_matches_tokens_witness :
  class_doc !! 2%positive
    = Some (mkElement "x" "P" ["foo"; "bar"] (Some 1%positive)) ∧
  getAncestorByClass 2 (new_HTMLElement 2%positive) "bar" class_doc
    = (Return (Some (new_HTMLElement 2%positive)), class_doc) ∧
  getAncestorByClass 2 (new_HTMLElement 2%positive) "baz" class_doc
    = getAncestorByClass 1 (new_HTMLElement 1%positive) "baz" class_doc.
Proof.
  split; [reflexivity|].
  apply (class_search_matches_tokens class_doc (new_HTMLElement 2%positive)
           (mkElement "x" "P" ["foo"; "bar"] (Some 1%positive)) 1);
    [reflexivity|].
  intros t. cbn [classList]. rewrite !elem_of_cons, elem_of_nil. tauto.
Defined.

(** C6.  The search includes the starting node, for every kind of
    condition: a node whose id is [x] is returned by [getAncestorById x], a
    node whose tag name is [x] by [getAncestorByTag x], a node with [x]
    among its class tokens by [getAncestorByClass x]. *)
Theorem search_includes_start (d : Document) this e x fuel :
  d !! element this = Some e →
  (id e = x → getAncestorById (S fuel) this x d = (Return (Some this), d)) ∧
  (tagName e = x →
     getAncestorByTag (S fuel) this x d = (Return (Some this), d)) ∧
  (x ∈ classList e →
     getAncestorByClass (S fuel) this x d = (Return (Some this), d)).
Proof.
  destruct this as [n]. cbn [element]. intros Hn.
  unfold getAncestorById, getAncestorByTag, getAncestorByClass.
  cbn [element]. rewrite !(search_step _ _ _ _ _ _ Hn). cbn [get_property].
  split; [|split]; intros Hx; by rewrite bool_decide_eq_true_2.
Qed.

Lemma search_includes_start_witness :
  class_doc !! 2%positive
    = Some (mkElement "x" "P" ["foo"; "bar"] (Some 1%positive)) ∧
  getAncestorById 1 (new_HTMLElement 2%positive) "x" class_doc
    = (Return (Some (new_HTMLElement 2%positive)), class_doc).
Proof.
  split; [reflexivity|].
  apply (search_includes_start class_doc (new_HTMLElement 2%positive)
           (mkElement "x" "P" ["foo"; "bar"] (Some 1%positive)) "x" 0);
    reflexivity.
Defined.

(** C7.  From a node whose parent chain is finite (and so has no cycle) the
    search terminates: as many invocations as the chain has nodes are
    enough for it to return or throw, and more fuel does not change the
    outcome. *)
Theorem ancestor_search_terminates (d : Document) n l condition property :
  chain d n l →
  ∃ r, terminated r ∧
    ∀ fuel, length l ≤ fuel →
      getAncestorByClassRecursive fuel condition property n d = (r, d).
Proof. apply search_total. Qed.

Lemma ancestor_search_terminates_witness :
  ∃ r, terminated r ∧
    ∀ fuel, 5 ≤ fuel →
      getAncestorByClassRecursive fuel "nope" PclassList readme_leaf readme_doc
        = (r, readme_doc).
Proof.
  apply (ancestor_search_terminates readme_doc readme_leaf
           [readme_leaf; readme_span; readme_some_div; readme_my_div;
            readme_body] "nope" PclassList).
  apply (ancestors_chain 5). reflexivity.
Defined.

(** C8.  The search changes nothing: the document after the call is the
    document before it, whatever the outcome, and the same call made again
    has the same outcome. *)
Theorem ancestor_search_read_only fuel condition property n (d : Document) :
  (getAncestorByClassRecursive fuel condition property n d).2 = d ∧
  getAncestorByClassRecursive fuel condition property n
      (getAncestorByClassRecursive fuel condition property n d).2
    = getAncestorByClassRecursive fuel condition property n d.
Proof. split; [apply search_frame | by rewrite search_frame]. Qed.

(** C9.  A search started at the root with a condition the root does not
    satisfy should return the absent marker after one node.  On the tag
    chain the root has neither tag "SECTION" nor id "x", and both searches
    throw at the root. *)
Theorem root_search_faults :
  (parentElement <$> tag_doc !! tag_root) = Some None ∧
  spec_locate tag_doc PtagName "SECTION" [tag_root] = None ∧
  spec_locate tag_doc Pid "x" [tag_root] = None ∧
  ∀ fuel,
    getAncestorByTag (S fuel) (new_HTMLElement tag_root) "SECTION" tag_doc
      = (Throw TypeError, tag_doc) ∧
    getAncestorById (S fuel) (new_HTMLElement tag_root) "x" tag_doc
      = (Throw TypeError, tag_doc).
Proof.
  do 3 (split; [reflexivity|]).
  intros fuel. unfold getAncestorByTag, getAncestorById. split.
  - by rewrite (byString_start _ _ (mkElement "" "HTML" [] None)
                  PtagName "HTML").
  - by rewrite (byString_start _ _ (mkElement "" "HTML" [] None) Pid "").
Qed.

(** C10.  Reading [id] gives [null] exactly when the element's id is the
    empty string, and the element's id otherwise; writing [null] stores the
    empty string; after writing [null] or the empty string a read gives
    [null]. *)
Theorem id_accessor_normalises_empty (d : Document) this e :
  d !! element this = Some e →
  (get_id this d = (Return None, d) ↔ id e = "") ∧
  (id e ≠ "" → get_id this d = (Return (Some (id e)), d)) ∧
  set_id this None d = (Return (), <[element this := with_id e ""]> d) ∧
  set_id this (Some "") d = (Return (), <[element this := with_id e ""]> d) ∧
  (get_id this (set_id this None d).2).1 = Return None ∧
  (get_id this (set_id this (Some "") d).2).1 = Return None.
Proof.
  intros Hn.
  assert (Hget : get_id this d = (Return (or_null (id e)), d))
    by (unfold get_id; by rewrite (bind_read _ _ _ _ Hn)).
  assert (Hset : ∀ v, set_id this v d =
            (Return (), <[element this := with_id e (nullish_empty v)]> d))
    by (intros v; unfold set_id; rewrite (bind_read _ _ _ _ Hn);
        unfold write; by rewrite Hn).
  assert (Hafter : ∀ s,
            get_id this (<[element this := with_id e s]> d)
            = (Return (or_null s), <[element this := with_id e s]> d))
    by (intros s; unfold get_id;
        by rewrite (bind_read _ _ (with_id e s)) by apply lookup_insert_eq).
  rewrite Hget, !Hset. cbn [nullish_empty snd]. rewrite Hafter.
  unfold or_null. repeat split; try done.
  - case_bool_decide; [done | discriminate].
  - intros ->. done.
  - intros Hne. by rewrite bool_decide_eq_false_2.
Qed.

Lemma id_accessor_normalises_empty_witness :
  readme_doc !! readme_leaf
    = Some (mkElement "my-leaf" "P" [] (Some readme_span)) ∧
  (get_id (new_HTMLElement readme_leaf)
     (set_id (new_HTMLElement readme_leaf) None readme_doc).2).1
    = Return None.
Proof.
  split; [reflexivity|].
  apply (id_accessor_normalises_empty readme_doc (new_HTMLElement readme_leaf)
           (mkElement "my-leaf" "P" [] (Some readme_span))).
  reflexivity.
Defined.

(** * Further properties of the ancestor search *)

Lemma parent_of_intro (d : Document) n e p :
  d !! n = Some e → parentElement e = Some p → parent_of d n p.
Proof.
  intros Hn Hp. unfold parent_of, get_parent. cbn [element].
  by rewrite (bind_read _ _ _ _ Hn), Hp.
Qed.

Lemma get_property_matches e property condition :
  spec_matches property condition e =
    match get_property e property with
    | VString s => bool_decide (s = condition)
    | VTokenList l => bool_decide (condition ∈ l)
    end.
Proof. by destruct property. Qed.

(** What a search returns is a live node that matches and that is reached
    from the start by parent steps. *)
Lemma search_returns_match fuel condition property n (d d' : Document) w :
  getAncestorByClassRecursive fuel condition property n d
    = (Return (Some w), d') →
  rtc (parent_of d) n (element w) ∧
  ∃ e, d !! element w = Some e ∧ spec_matches property condition e = true.
Proof.
  revert n. induction fuel as [|fuel IH]; intros n; [done|].
  destruct (d !! n) as [e|] eqn:Hn; [|by rewrite search_dangling].
  rewrite (search_step _ _ _ _ _ _ Hn).
  pose proof (get_property_matches e property condition) as Hm.
  destruct (get_property e property) as [s|l]; case_bool_decide;
    try discriminate.
  - intros [= <- _]. cbn [element]. split; [done|]. eauto.
  - intros [= <- _]. cbn [element]. split; [done|]. eauto.
  - destruct (parentElement e) as [p|] eqn:Hp; [|discriminate].
    intros Hrec. destruct (IH _ Hrec) as [Hrtc Hw].
    split; [|done]. eapply rtc_l; [by eapply parent_of_intro | done].
Qed.

(** X1.  Whatever node an ancestor search returns, by id, tag or class, it
    is the starting node or is reached from it by following [parent], it is
    in the document, and it satisfies the condition searched for. *)
Theorem search_result_sound fuel condition property n (d d' : Document) w :
  getAncestorByClassRecursive fuel condition property n d
    = (Return (Some w), d') →
  rtc (parent_of d) n (element w) ∧
  ∃ e, d !! element w = Some e ∧ spec_matches property condition e = true.
Proof. apply search_returns_match. Qed.

Lemma search_result_sound_witness :
  rtc (parent_of readme_doc) readme_leaf readme_some_div ∧
  ∃ e, readme_doc !! readme_some_div = Some e ∧
       spec_matches PclassList "some-div" e = true.
Proof.
  apply (search_result_sound 3 "some-div" PclassList readme_leaf
           readme_doc readme_doc (new_HTMLElement readme_some_div)).
  reflexivity.
Defined.

(** X2.  The node a search returns is a fixed point of that search: the
    same search started from the returned wrapper returns that wrapper, in
    one invocation. *)
Theorem search_result_fixed_point fuel fuel' condition property n
    (d d' : Document) w :
  getAncestorByClassRecursive fuel condition property n d
    = (Return (Some w), d') →
  getAncestorByClassRecursive (S fuel') condition property (element w) d
    = (Return (Some w), d).
Proof.
  intros Hs. destruct (search_returns_match _ _ _ _ _ _ _ Hs)
    as (_ & e & Hw & Hm).
  rewrite (search_step _ _ _ _ _ _ Hw).
  rewrite get_property_matches in Hm. destruct w as [m].
  by destruct (get_property e property); rewrite Hm.
Qed.

Lemma search_result_fixed_point_witness :
  getAncestorByClassRecursive 1 "some-div" PclassList readme_some_div
    readme_doc
    = (Return (Some (new_HTMLElement readme_some_div)), readme_doc).
Proof.
  apply (search_result_fixed_point 3 0 "some-div" PclassList readme_leaf
           readme_doc readme_doc (new_HTMLElement readme_some_div)).
  reflexivity.
Defined.

(** X3.  [getAncestorById] and [getAncestorByTag] never return [null] and
    never return a node other than the one they are called on, whatever
    the document and the fuel. *)
Theorem string_search_start_only fuel this x (d d' : Document) r :
  getAncestorById fuel this x d = (r, d') ∨
  getAncestorByTag fuel this x d = (r, d') →
  r ≠ Return None ∧ ∀ w, r = Return (Some w) → w = this.
Proof.
  destruct this as [n]. unfold getAncestorById, getAncestorByTag.
  cbn [element]. destruct fuel as [|fuel].
  { intros [[= <- _] | [= <- _]]; (split; [done | by intros w [=]]). }
  destruct (d !! n) as [e|] eqn:Hn.
  - rewrite !(search_step _ _ _ _ _ _ Hn). cbn [get_property].
    intros [H | H]; revert H; case_bool_decide; intros [= <- _];
      (split; [done | by intros w [= <-]]).
  - rewrite !search_dangling by done.
    intros [[= <- _] | [= <- _]]; (split; [done | by intros w [=]]).
Qed.

Lemma string_search_start_only_witness :
  Throw TypeError ≠ Return (A := option HTMLElement) None ∧
  ∀ w, Throw TypeError = Return (Some w) → w = new_HTMLElement readme_leaf.
Proof.
  apply (string_search_start_only 5 (new_HTMLElement readme_leaf) "my-div"
           readme_doc readme_doc (Throw TypeError)).
  left. reflexivity.
Defined.

Lemma has_class_live (d : Document) c n e :
  d !! n = Some e → has_class d c n = bool_decide (c ∈ classList e).
Proof. intros Hn. unfold has_class. by rewrite Hn. Qed.

(** X4.  On a finite chain, with as much fuel as the chain has nodes,
    [getAncestorByClass] returns [null] when no node of the chain has the
    class, and otherwise the nearest node that has it: every node before it
    on the chain lacks the class. *)
Theorem getAncestorByClass_nearest (d : Document) this l c fuel :
  chain d (element this) l →
  length l ≤ fuel →
  ((∀ m, m ∈ l → has_class d c m = false) ∧
   getAncestorByClass fuel this c d = (Return None, d)) ∨
  (∃ l1 m l2,
     l = l1 ++ m :: l2 ∧
     (∀ k, k ∈ l1 → has_class d c k = false) ∧
     has_class d c m = true ∧
     getAncestorByClass fuel this c d
       = (Return (Some (new_HTMLElement m)), d)).
Proof.
  destruct this as [n]. unfold getAncestorByClass. cbn [element].
  intros Hc. revert fuel.
  induction Hc as [n e Hn Hp | n e p l Hn Hp Hc IH]; intros fuel Hfuel;
    (destruct fuel as [|fuel]; [simpl in Hfuel; lia|]);
    rewrite (search_step _ _ _ _ _ _ Hn); cbn [get_property];
    pose proof (has_class_live d c n e Hn) as Hcls;
    destruct (bool_decide (c ∈ classList e)) eqn:Hb.
  - right. exists [], n, []. split; [done|]. split; [|done].
    intros k Hk. by apply elem_of_nil in Hk.
  - left. rewrite Hp. split; [|done].
    intros m Hm. by apply list_elem_of_singleton in Hm as ->.
  - right. exists [], n, l. split; [done|]. split; [|done].
    intros k Hk. by apply elem_of_nil in Hk.
  - rewrite Hp.
    destruct (IH fuel ltac:(simpl in Hfuel; lia))
      as [[Hnone Hres] | (l1 & m & l2 & -> & Hbefore & Hm & Hres)].
    + left. split; [|done].
      intros m Hm. apply elem_of_cons in Hm as [-> | Hm]; auto.
    + right. exists (n :: l1), m, l2. split; [done|]. split; [|done].
      intros k Hk. apply elem_of_cons in Hk as [-> | Hk]; auto.
Qed.

Lemma getAncestorByClass_nearest_witness :
  ((∀ m, m ∈ [readme_leaf; readme_span; readme_some_div; readme_my_div;
              readme_body] → has_class readme_doc "some-div" m = false) ∧
   getAncestorByClass 5 (new_HTMLElement readme_leaf) "some-div" readme_doc
     = (Return None, readme_doc)) ∨
  (∃ l1 m l2,
     [readme_leaf; readme_span; readme_some_div; readme_my_div; readme_body]
       = l1 ++ m :: l2 ∧
     (∀ k, k ∈ l1 → has_class readme_doc "some-div" k = false) ∧
     has_class readme_doc "some-div" m = true ∧
     getAncestorByClass 5 (new_HTMLElement readme_leaf) "some-div" readme_doc
       = (Return (Some (new_HTMLElement m)), readme_doc)).
Proof.
  apply (getAncestorByClass_nearest readme_doc (new_HTMLElement readme_leaf)
           [readme_leaf; readme_span; readme_some_div; readme_my_div;
            readme_body] "some-div" 5).
  - apply (ancestors_chain 5). reflexivity.
  - simpl. lia.
Defined.

(** X5.  The number of invocations a class search makes on a finite chain
    is one more than the number of nodes before the first one that has the
    class, and the length of the chain when none has it: with less fuel the
    search has not ended, with that much or more it has. *)
Theorem class_search_invocations (d : Document) n l c fuel :
  chain d n l →
  (getAncestorByClassRecursive fuel c PclassList n d).1 = Diverge
  ↔ fuel < Nat.min (S (first_index (has_class d c) l)) (length l).
Proof.
  intros Hc. revert fuel.
  induction Hc as [n e Hn Hp | n e p l Hn Hp Hc IH]; intros fuel;
    cbn [first_index length]; rewrite (has_class_live d c n e Hn);
    (destruct fuel as [|fuel];
     [ split; [intros _; destruct (bool_decide _); simpl; lia | done] |]);
    rewrite (search_step _ _ _ _ _ _ Hn), Hp; cbn [get_property];
    destruct (bool_decide (c ∈ classList e)); cbn [fst].
  - split; [done | simpl; lia].
  - split; [done | simpl; lia].
  - split; [done | simpl; lia].
  - rewrite IH. rewrite <- Nat.succ_min_distr. lia.
Qed.

Lemma class_search_invocations_witness :
  (getAncestorByClassRecursive 2 "some-div" PclassList readme_leaf
     readme_doc).1 = Diverge
  ↔ 2 < Nat.min (S (first_index (has_class readme_doc "some-div")
                        [readme_leaf; readme_span; readme_some_div;
                         readme_my_div; readme_body])) 5.
Proof.
  apply (class_search_invocations readme_doc readme_leaf
           [readme_leaf; readme_span; readme_some_div; readme_my_div;
            readme_body] "some-div" 2).
  apply (ancestors_chain 5). reflexivity.
Defined.

(** X6.  The search has no defence against a parent cycle: from a node of
    a set of live elements that all lack the class and all have their
    parent in the set, a class search has not ended after any number of
    invocations. *)
Theorem class_search_diverges_on_cycle (d : Document) (cyc : node → Prop) c :
  (∀ n, cyc n →
     ∃ e p, d !! n = Some e ∧ (c ∉ classList e) ∧
            parentElement e = Some p ∧ cyc p) →
  ∀ fuel n, cyc n →
    getAncestorByClassRecursive fuel c PclassList n d = (Diverge, d).
Proof.
  intros Hclosed fuel. induction fuel as [|fuel IH]; intros n Hn; [done|].
  destruct (Hclosed n Hn) as (e & p & He & Hc & Hp & Hcp).
  rewrite (search_step _ _ _ _ _ _ He), Hp. cbn [get_property].
  rewrite bool_decide_eq_false_2 by done. by apply IH.
Qed.

Lemma class_search_diverges_on_cycle_witness :
  getAncestorByClassRecursive 7 "menu" PclassList 1%positive cyclic_doc
    = (Diverge, cyclic_doc).
Proof.
  apply (class_search_diverges_on_cycle cyclic_doc
           (λ n, n = 1%positive ∨ n = 2%positive) "menu").
  - intros n [-> | ->].
    + exists (mkElement "" "DIV" [] (Some 2%positive)), 2%positive.
      split; [reflexivity|]. split; [apply not_elem_of_nil|].
      split; [reflexivity | by right].
    + exists (mkElement "" "DIV" [] (Some 1%positive)), 1%positive.
      split; [reflexivity|]. split; [apply not_elem_of_nil|].
      split; [reflexivity | by left].
  - by left.
Defined.

Lemma chain_get_parent (d : Document) n l k m :
  chain d n l → l !! k = Some m →
  get_parent (new_HTMLElement m) d
    = (Return (new_HTMLElement <$> l !! S k), d).
Proof.
  intros Hc. revert k.
  induction Hc as [n e Hn Hp | n e p l Hn Hp Hc IH]; intros k Hk.
  - destruct k as [|k]; [|done]. simplify_eq/=.
    unfold get_parent. cbn [element].
    by rewrite (bind_read _ _ _ _ Hn), Hp.
  - destruct k as [|k].
    + simplify_eq/=. unfold get_parent. cbn [element].
      rewrite (bind_read _ _ _ _ Hn), Hp.
      by destruct (chain_head _ _ _ Hc) as [l' ->].
    + apply (IH k Hk).
Qed.

(** X7.  Following [parent] from a node with a finite chain visits the
    nodes of the chain in order, and gives [null] from the end of the chain
    on. *)
Theorem nth_parent_follows_chain (d : Document) this l k :
  chain d (element this) l →
  nth_parent k this d = (Return (new_HTMLElement <$> l !! k), d).
Proof.
  intros Hc. induction k as [|k IH].
  - destruct (chain_head _ _ _ Hc) as [l' ->]. by destruct this.
  - cbn [nth_parent]. unfold mbind, M_bind at 1. rewrite IH.
    destruct (l !! k) as [m|] eqn:Hk; cbn [fmap option_fmap option_map].
    + by apply (chain_get_parent _ _ _ _ _ Hc).
    + apply lookup_ge_None in Hk.
      by rewrite (proj2 (lookup_ge_None l (S k))) by lia.
Qed.

Lemma nth_parent_follows_chain_witness :
  nth_parent 2 (new_HTMLElement readme_leaf) readme_doc
    = (Return (Some (new_HTMLElement readme_some_div)), readme_doc).
Proof.
  apply (nth_parent_follows_chain readme_doc (new_HTMLElement readme_leaf)
           [readme_leaf; readme_span; readme_some_div; readme_my_div;
            readme_body] 2).
  apply (ancestors_chain 5). reflexivity.
Defined.

(** * Further properties of the [id] accessor *)

Lemma get_id_live (d : Document) this e :
  d !! element this = Some e →
  get_id this d = (Return (or_null (id e)), d).
Proof. intros Hn. unfold get_id. by rewrite (bind_read _ _ _ _ Hn). Qed.

Lemma set_id_live (d : Document) this e v :
  d !! element this = Some e →
  set_id this v d
    = (Return (), <[element this := with_id e (nullish_empty v)]> d).
Proof.
  intros Hn. unfold set_id. rewrite (bind_read _ _ _ _ Hn).
  unfold write. by rewrite Hn.
Qed.

Lemma set_id_dangling (d : Document) this v :
  d !! element this = None → set_id this v d = (Stuck, d).
Proof. intros Hn. unfold set_id, mbind, M_bind, read. by rewrite Hn. Qed.

Lemma nullish_or_null s : nullish_empty (or_null s) = s.
Proof. unfold or_null. by case_bool_decide. Qed.

Lemma with_id_same e : with_id e (id e) = e.
Proof. by destruct e. Qed.

(** Two documents that give every reference the same inspected attribute
    and the same parent give the search the same outcome. *)
Lemma search_agree condition property (d1 d2 : Document) :
  (∀ m, (λ e, (get_property e property, parentElement e)) <$> d1 !! m
        = (λ e, (get_property e property, parentElement e)) <$> d2 !! m) →
  ∀ fuel n,
    (getAncestorByClassRecursive fuel condition property n d1).1
    = (getAncestorByClassRecursive fuel condition property n d2).1.
Proof.
  intros Hagree fuel. induction fuel as [|fuel IH]; intros n; [done|].
  specialize (Hagree n).
  destruct (d1 !! n) as [e1|] eqn:H1, (d2 !! n) as [e2|] eqn:H2;
    try discriminate.
  - rewrite (search_step _ _ _ _ _ _ H1), (search_step _ _ _ _ _ _ H2).
    injection Hagree as -> ->.
    destruct (get_property e2 property); case_bool_decide; try done.
    destruct (parentElement e2); [apply IH | done].
  - by rewrite !search_dangling.
Qed.

(** X8.  An id written through the wrapper is read back through it: after
    [this.id = s] with [s] a non-empty string, [this.id] is [s]. *)
Theorem id_write_then_read (d : Document) this e s :
  d !! element this = Some e →
  s ≠ "" →
  (get_id this (set_id this (Some s) d).2).1 = Return (Some s).
Proof.
  intros Hn Hs. rewrite (set_id_live _ _ _ _ Hn). cbn [snd nullish_empty].
  rewrite (get_id_live _ _ (with_id e s)) by apply lookup_insert_eq.
  cbn [fst with_id id]. unfold or_null. by rewrite bool_decide_eq_false_2.
Qed.

Lemma id_write_then_read_witness :
  (get_id (new_HTMLElement readme_span)
     (set_id (new_HTMLElement readme_span) (Some "label") readme_doc).2).1
    = Return (Some "label").
Proof.
  apply (id_write_then_read readme_doc (new_HTMLElement readme_span)
           (mkElement "" "SPAN" [] (Some readme_some_div)) "label");
    [reflexivity | discriminate].
Defined.



(** X10.  Writing an id touches nothing else: every other element is as it
    was, and the element written to keeps its tag name, its class tokens
    and its parent; no element appears or disappears. *)
Theorem set_id_frame (d : Document) this v m :
  (m ≠ element this → (set_id this v d).2 !! m = d !! m) ∧
  tagName <$> (set_id this v d).2 !! m = tagName <$> d !! m ∧
  classList <$> (set_id this v d).2 !! m = classList <$> d !! m ∧
  parentElement <$> (set_id this v d).2 !! m = parentElement <$> d !! m.
Proof.
  destruct (d !! element this) as [e|] eqn:Hn.
  - rewrite (set_id_live _ _ _ _ Hn). cbn [snd].
    split; [intros Hm; by rewrite lookup_insert_ne|].
    destruct (decide (m = element this)) as [->|Hm].
    + by rewrite lookup_insert_eq, Hn.
    + by rewrite lookup_insert_ne.
  - by rewrite set_id_dangling.
Qed.

(** X11.  The outcome of a search depends only on the attribute it
    inspects and on the parent links: two documents that agree on those for
    every reference give the same outcome, whatever else differs. *)
Theorem search_depends_on_inspected condition property (d1 d2 : Document) :
  (∀ m, (λ e, (get_property e property, parentElement e)) <$> d1 !! m
        = (λ e, (get_property e property, parentElement e)) <$> d2 !! m) →
  ∀ fuel n,
    (getAncestorByClassRecursive fuel condition property n d1).1
    = (getAncestorByClassRecursive fuel condition property n d2).1.
Proof. apply search_agree. Qed.

Lemma search_depends_on_inspected_witness :
  (getAncestorByClassRecursive 4 "DIV" PtagName tag_C tag_doc).1
  = (getAncestorByClassRecursive 4 "DIV" PtagName tag_C
       (<[tag_A := mkElement "main" "DIV" ["wide"] (Some tag_root)]>
          tag_doc)).1.
Proof.
  apply (search_depends_on_inspected "DIV" PtagName tag_doc
           (<[tag_A := mkElement "main" "DIV" ["wide"] (Some tag_root)]>
              tag_doc)).
  intros m. destruct (decide (m = tag_A)) as [->|Hm].
  - reflexivity.
  - rewrite lookup_insert_ne by done. reflexivity.
Defined.

(** X12.  Writing an id does not change what a tag search or a class
    search finds, from any node; and after [this.id = v] an id search from
    [this] for the stored id (the empty string when [v] is [null]) returns
    [this]. *)
Theorem set_id_and_search (d : Document) this v fuel w c :
  (getAncestorByTag fuel w c (set_id this v d).2).1
    = (getAncestorByTag fuel w c d).1 ∧
  (getAncestorByClass fuel w c (set_id this v d).2).1
    = (getAncestorByClass fuel w c d).1 ∧
  (is_Some (d !! element this) →
     (getAncestorById (S fuel) this (nullish_empty v) (set_id this v d).2).1
       = Return (Some this)).
Proof.
  pose proof (set_id_frame d this v) as Hframe.
  unfold getAncestorByTag, getAncestorByClass, getAncestorById.
  split; [|split].
  - apply search_agree. intros m. destruct (Hframe m) as (_ & Ht & _ & Hp).
    destruct ((set_id this v d).2 !! m), (d !! m); simplify_eq/=;
      [by rewrite Ht, Hp | done].
  - apply search_agree. intros m. destruct (Hframe m) as (_ & _ & Hc & Hp).
    destruct ((set_id this v d).2 !! m), (d !! m); simplify_eq/=;
      [by rewrite Hc, Hp | done].
  - intros [e Hn]. rewrite (set_id_live _ _ _ _ Hn). cbn [snd].
    rewrite (search_step _ _ _ _ _ (with_id e (nullish_empty v)))
      by apply lookup_insert_eq.
    cbn [get_property with_id id]. rewrite bool_decide_eq_true_2 by done.
    by destruct this.
Qed.

Lemma set_id_frame_witness :
  (set_id (new_HTMLElement readme_span) (Some "label") readme_doc).2
    !! readme_leaf = readme_doc !! readme_leaf.
Proof.
  apply (set_id_frame readme_doc (new_HTMLElement readme_span)
           (Some "label") readme_leaf).
  discriminate.
Defined.

Lemma set_id_and_search_witness :
  (getAncestorById 1 (new_HTMLElement readme_span) ""
     (set_id (new_HTMLElement readme_span) None readme_doc).2).1
    = Return (Some (new_HTMLElement readme_span)).
Proof.
  apply (set_id_and_search readme_doc (new_HTMLElement readme_span) None 0
           (new_HTMLElement readme_leaf) "x").
  eexists. reflexivity.
Defined.

(** * The accessors of optional string properties *)

Lemma or_null_not_empty s : or_null s ≠ Some "".
Proof. unfold or_null. case_bool_decide; congruence. Qed.

Lemma or_null_nullish v :
  or_null (nullish_empty v) = if bool_decide (v = Some "") then None else v.
Proof.
  destruct v as [s|]; [|done]. cbn [nullish_empty]. unfold or_null.
  repeat case_bool_decide; congruence.
Qed.



Lemma slot_example_reflects :
  @reflects_plainly _ slot_host "src" 1%positive slot_example.
Proof.
  split; [reflexivity|]. intros v. cbn [has_property load_property
    store_property slot_host]. rewrite lookup_insert_eq. by split.
Qed.

